(** * User-facing explain of an optimized physical plan

    A shallow embedding of [UserFacingExplain] from
    [src/mongo/db/query/optimizer/explain.h]: the visitor that turns a plan
    tree (an [ABT]) and the identity-keyed table of node properties into a
    nested BSON document, together with the recognizer of the degenerate
    "EOF" plan shape. *)

From Stdlib Require Import ZArith String List Floats.SpecFloat.
From stdpp Require Import base option list strings gmap.

Set Warnings "-register-all".

Local Open Scope string_scope.
Local Open Scope list_scope.
Local Open Scope Z_scope.

(* ===================================================================== *)
(** ** Outcomes of the C++ code *)
(* ===================================================================== *)

(** A call either returns, or leaves through the exception raised by
    [tassert]/[tasserted] (an assertion code and its message), or runs into
    a use of the code that the source itself excludes. *)
Inductive Outcome (A : Type) : Type :=
| Returns (a : A)
| Throws (code : Z) (msg : string)
| Undefined.

Arguments Returns {A} a.
Arguments Throws {A} code msg.
Arguments Undefined {A}.

#[export] Instance Outcome_ret : MRet Outcome := fun A a => Returns a.

#[export] Instance Outcome_bind : MBind Outcome := fun A B k c =>
  match c with
  | Returns a => k a
  | Throws code msg => Throws code msg
  | Undefined => Undefined
  end.

(** [tassert(code, msg, cond)]. *)
Definition tassert (code : Z) (msg : string) (cond : bool) : Outcome unit :=
  if cond then Returns tt else Throws code msg.

(** [tasserted(code, msg)]. *)
Definition tasserted {A : Type} (code : Z) (msg : string) : Outcome A :=
  Throws code msg.

Definition returned {A : Type} (c : Outcome A) : bool :=
  match c with Returns _ => true | _ => false end.

(* ===================================================================== *)
(** ** The plan tree *)
(* ===================================================================== *)

(** The address of a node: the [const Node*] the property table is keyed
    by. *)
Abbreviation NodeAddr := positive.

Inductive ScanOrder : Type := Forward | Reverse | Random.

(** Modelled from the spec: the value held by a [Constant] expression
    (declared in [syntax/expr.h]); only the "missing/nothing" sentinel is
    named by the code. *)
Inductive ConstantValue : Type :=
| Nothing
| NumberInt64 (v : Z)
| Boolean (b : bool)
| StringValue (s : string).

(** Modelled from the spec: the variants of [ABT] (declared in
    [node_defs.h] and [syntax/syntax.h]).  A node carries its own address
    [self]; the remaining arguments are the fields and children the code
    reads.  [OtherABT] stands for every variant the code does not name. *)
Inductive ABT : Type :=
| RootNode (self : NodeAddr) (child refs : ABT)
| FilterNode (self : NodeAddr) (child expr : ABT)
| EvaluationNode (self : NodeAddr) (projectionName : string) (child projection : ABT)
| PhysicalScanNode (self : NodeAddr) (scanDefName : string) (scanOrder : ScanOrder) (bind : ABT)
| LimitSkipNode (self : NodeAddr) (limit skip : Z) (child : ABT)
| CoScanNode (self : NodeAddr)
| Constant (v : ConstantValue)
| OtherABT (tag : string) (children : list ABT).

Definition ScanOrder_eqb (a b : ScanOrder) : bool :=
  match a, b with
  | Forward, Forward | Reverse, Reverse | Random, Random => true
  | _, _ => false
  end.

Definition ConstantValue_eqb (a b : ConstantValue) : bool :=
  match a, b with
  | Nothing, Nothing => true
  | NumberInt64 x, NumberInt64 y => Z.eqb x y
  | Boolean x, Boolean y => Bool.eqb x y
  | StringValue x, StringValue y => String.eqb x y
  | _, _ => false
  end.

(** Modelled from the spec: [operator==] on [ABT], a structural comparison
    of variants, fields and children.  Addresses are not compared: the code
    compares a subtree of the plan with a freshly made tree. *)
Fixpoint ABT_eqb (x y : ABT) : bool :=
  match x, y with
  | RootNode _ c r, RootNode _ c' r' => ABT_eqb c c' && ABT_eqb r r'
  | FilterNode _ c e, FilterNode _ c' e' => ABT_eqb c c' && ABT_eqb e e'
  | EvaluationNode _ n c p, EvaluationNode _ n' c' p' =>
      String.eqb n n' && ABT_eqb c c' && ABT_eqb p p'
  | PhysicalScanNode _ n o b, PhysicalScanNode _ n' o' b' =>
      String.eqb n n' && ScanOrder_eqb o o' && ABT_eqb b b'
  | LimitSkipNode _ l s c, LimitSkipNode _ l' s' c' =>
      Z.eqb l l' && Z.eqb s s' && ABT_eqb c c'
  | CoScanNode _, CoScanNode _ => true
  | Constant v, Constant v' => ConstantValue_eqb v v'
  | OtherABT t cs, OtherABT t' cs' =>
      String.eqb t t' &&
      (fix all2 (l l' : list ABT) {struct l} : bool :=
         match l, l' with
         | [], [] => true
         | a :: l, b :: l' => ABT_eqb a b && all2 l l'
         | _, _ => false
         end) cs cs'
  | _, _ => false
  end.

(** [Constant::nothing()]. *)
Definition Constant_nothing : ABT := Constant Nothing.

(** The address given to a node made inside the printer; no code reads
    it. *)
Definition temporary : NodeAddr := 1%positive.

(** [make<CoScanNode>()] and
    [make<LimitSkipNode>(properties::LimitSkipRequirement{limit, skip}, child)]. *)
Definition make_CoScanNode : ABT := CoScanNode temporary.
Definition make_LimitSkipNode (limit skip : Z) (child : ABT) : ABT :=
  LimitSkipNode temporary limit skip child.

(** [n.cast<Node>()]: the address of a plan node, none for an expression. *)
Definition cast_Node (n : ABT) : option NodeAddr :=
  match n with
  | RootNode self _ _ | FilterNode self _ _ | EvaluationNode self _ _ _
  | PhysicalScanNode self _ _ _ | LimitSkipNode self _ _ _ | CoScanNode self => Some self
  | Constant _ | OtherABT _ _ => None
  end.

(* ===================================================================== *)
(** ** Node properties *)
(* ===================================================================== *)

(** Modelled from the spec: [CostType] and [NodeProps] (declared in
    [props.h] and [node_defs.h]): per node an integer plan-node identifier
    and a cost estimate, a [double]. *)
Record CostType : Type := mkCost { getCost : spec_float }.
Record NodeProps : Type := mkNodeProps { _planNodeId : Z; _cost : CostType }.

(** [NodeToGroupPropsMap]: from node address to properties. *)
Abbreviation NodeToGroupPropsMap := (gmap NodeAddr NodeProps).

(* ===================================================================== *)
(** ** BSON documents and their builder *)
(* ===================================================================== *)

Inductive BSONValue : Type :=
| BString (s : string)
| NumberInt (i : Z)
| NumberDouble (d : spec_float)
| Object (fields : list (string * BSONValue)).

(** An ordered sequence of named fields. *)
Abbreviation BSONObj := (list (string * BSONValue)).

(** A [BSONObjBuilder] holds the fields appended so far. *)
Abbreviation BSONObjBuilder := (list (string * BSONValue)).

Definition append (bob : BSONObjBuilder) (name : string) (v : BSONValue) : BSONObjBuilder :=
  bob ++ [(name, v)].

(** [bob.obj()]. *)
Definition obj (bob : BSONObjBuilder) : BSONObj := bob.

(** [BSONObj::isEmpty]. *)
Definition isEmpty (o : BSONObj) : bool :=
  match o with [] => true | _ :: _ => false end.

Fixpoint getField (o : BSONObj) (name : string) : option BSONValue :=
  match o with
  | [] => None
  | (k, v) :: o' => if String.eqb k name then Some v else getField o' name
  end.

Definition hasField (o : BSONObj) (name : string) : bool :=
  match getField o name with Some _ => true | None => false end.

Definition fieldNames (o : BSONObj) : list string := map fst o.

(* ===================================================================== *)
(** ** UserFacingExplain *)
(* ===================================================================== *)

Definition kStage := "stage".
Definition kNodeId := "planNodeId".
Definition kProj := "projections".
Definition kCE := "cardinalityEstimate".
Definition kInput := "inputStage".

Definition kScanName := "COLLSCAN".
Definition kDir := "direction".
Definition kForward := "forward".
Definition kBackward := "backward".
Definition kRandom := "random".

Definition kFilterName := "FILTER".
Definition kFilter := "filter".

Definition kEvalName := "EVALUATION".

Definition kRootName := "ROOT".
Definition kCost := "costEstimate".

Definition kEOF := "EOF".

Definition todo := BString "<todo>".
Definition missingProps := "Failed to find node properties".
Definition unsupportedNode := "Trying to generate explain for an unsupported node.".
Definition noNodes := "The ABT has no nodes.".

Section UserFacingExplain.

(** The table the visitor holds a reference to. *)
Variable _nodeMap : NodeToGroupPropsMap.

(** [_nodeMap.find(&node)] followed by the [tassert] that it is found. *)
Definition findProps (code : Z) (self : NodeAddr) : Outcome NodeProps :=
  let it := _nodeMap !! self in
  tassert code missingProps (bool_decide (is_Some it));;
  match it with
  | Some props => Returns props
  | None => Undefined
  end.

Section walk.

(** The visitor the handlers recurse through. *)
Variable generateExplain : ABT -> BSONObjBuilder -> Outcome BSONObjBuilder.

(** The handlers fill the builder they are given and return it.  A
    sub-builder opened by [subobjStart] starts empty and is folded into
    its parent, under the given name, when it goes out of scope. *)
Definition subobj (bob : BSONObjBuilder) (name : string) (n : ABT) :
  Outcome BSONObjBuilder :=
  inputBob ← generateExplain n [];
  Returns (append bob name (Object (obj inputBob))).

Definition walk_default (bob : BSONObjBuilder) : Outcome BSONObjBuilder :=
  tasserted 8075606 unsupportedNode.

Definition walk_RootNode (self : NodeAddr) (bob : BSONObjBuilder) (child refs : ABT) :
  Outcome BSONObjBuilder :=
  props ← findProps 8075600 self;
  let bob := append bob kStage (BString kRootName) in
  let bob := append bob kProj todo in
  let bob := append bob kCE todo in
  let bob := append bob kCost (NumberDouble (getCost (_cost props))) in
  subobj bob kInput child.

Definition walk_FilterNode (self : NodeAddr) (bob : BSONObjBuilder) (child expr : ABT) :
  Outcome BSONObjBuilder :=
  props ← findProps 8075601 self;
  let bob := append bob kStage (BString kFilterName) in
  let bob := append bob kNodeId (NumberInt (_planNodeId props)) in
  let bob := append bob kFilter todo in
  let bob := append bob kCE todo in
  subobj bob kInput child.

Definition walk_EvaluationNode (self : NodeAddr) (bob : BSONObjBuilder) (child expr : ABT) :
  Outcome BSONObjBuilder :=
  props ← findProps 8075602 self;
  let bob := append bob kStage (BString kEvalName) in
  let bob := append bob kNodeId (NumberInt (_planNodeId props)) in
  let bob := append bob kProj todo in
  let bob := append bob kCE todo in
  subobj bob kInput child.

Definition walk_PhysicalScanNode (self : NodeAddr) (order : ScanOrder)
  (bob : BSONObjBuilder) (bind : ABT) : Outcome BSONObjBuilder :=
  props ← findProps 8075603 self;
  let bob := append bob kStage (BString kScanName) in
  let bob := append bob kNodeId (NumberInt (_planNodeId props)) in
  let bob :=
    match order with
    | Forward => append bob kDir (BString kForward)
    | Reverse => append bob kDir (BString kBackward)
    | Random => append bob kDir (BString kRandom)
    end in
  let bob := append bob kProj todo in
  let bob := append bob kCE todo in
  Returns bob.

End walk.

(** [generateExplain] is [algebra::walk<false>(n, *this, bob)]: it calls
    the [walk] overload of the variant of [n] with the node's children,
    and the default overload for every other variant. *)
Fixpoint generateExplain (n : ABT) (bob : BSONObjBuilder) {struct n} :
  Outcome BSONObjBuilder :=
  match n with
  | RootNode self child refs => walk_RootNode generateExplain self bob child refs
  | FilterNode self child expr => walk_FilterNode generateExplain self bob child expr
  | EvaluationNode self _ child expr =>
      walk_EvaluationNode generateExplain self bob child expr
  | PhysicalScanNode self _ order bind => walk_PhysicalScanNode self order bob bind
  | LimitSkipNode _ _ _ _ | CoScanNode _ | Constant _ | OtherABT _ _ => walk_default bob
  end.

Definition generateEOFPlan (node : ABT) : Outcome BSONObj :=
  let bob : BSONObjBuilder := [] in
  let it := cast_Node node ≫= (_nodeMap !!.) in
  tassert 8075605 missingProps (bool_decide (is_Some it));;
  match it with
  | Some props =>
      let bob := append bob kStage (BString kEOF) in
      let bob := append bob kNodeId (NumberInt (_planNodeId props)) in
      Returns (obj bob)
  | None => Undefined
  end.

(** The source casts its argument to [RootNode] without a test ("we must
    have a RootNode"); on any other variant the outcome is [Undefined]. *)
Definition isEOFPlan (node : ABT) : Outcome bool :=
  match node with
  | RootNode _ rootChild _ =>
      match rootChild with
      | EvaluationNode _ _ evalChild projection =>
          if negb (ABT_eqb projection Constant_nothing) then Returns false
          else
            let eofChild := make_LimitSkipNode 0 0 make_CoScanNode in
            Returns (ABT_eqb evalChild eofChild)
      | _ => Returns false
      end
  | _ => Undefined
  end.

(** The second half of [explain]: the full traversal and the check of
    its result. *)
Definition explainWalk (node : ABT) : Outcome BSONObj :=
  let bob : BSONObjBuilder := [] in
  bob ← generateExplain node bob;
  let result := obj bob in
  tassert 8075604 noNodes (negb (isEmpty result));;
  Returns result.

Definition explain (node : ABT) : Outcome BSONObj :=
  eof ← isEOFPlan node;
  if (eof : bool) then generateEOFPlan node else explainWalk node.

End UserFacingExplain.

(* ===================================================================== *)
(** ** Shapes of plan trees *)
(* ===================================================================== *)

(** The variants that have a [walk] overload of their own. *)
Definition supported (n : ABT) : bool :=
  match n with
  | RootNode _ _ _ | FilterNode _ _ _ | EvaluationNode _ _ _ _
  | PhysicalScanNode _ _ _ _ => true
  | _ => false
  end.

(** The assertion code of the handler of a supported variant. *)
Definition lookupCode (n : ABT) : Z :=
  match n with
  | RootNode _ _ _ => 8075600
  | FilterNode _ _ _ => 8075601
  | EvaluationNode _ _ _ _ => 8075602
  | _ => 8075603
  end.

(** [Reachable t n]: the visitor started at [t] can arrive at [n]; only
    the handlers of Root, Filter and Evaluation recurse, into [child]. *)
Inductive Reachable : ABT -> ABT -> Prop :=
| reach_here t : Reachable t t
| reach_Root self child refs n :
    Reachable child n -> Reachable (RootNode self child refs) n
| reach_Filter self child expr n :
    Reachable child n -> Reachable (FilterNode self child expr) n
| reach_Evaluation self name child proj n :
    Reachable child n -> Reachable (EvaluationNode self name child proj) n.

(** The plan nodes directly below a plan node. *)
Definition planChildren (n : ABT) : list ABT :=
  match n with
  | RootNode _ child _ | FilterNode _ child _ | EvaluationNode _ _ child _
  | LimitSkipNode _ _ _ child => [child]
  | OtherABT _ children => children
  | PhysicalScanNode _ _ _ _ | CoScanNode _ | Constant _ => []
  end.

(** [Contains t n]: [n] is a plan node of the tree [t]. *)
Inductive Contains : ABT -> ABT -> Prop :=
| contains_here t : Contains t t
| contains_child t c n : In c (planChildren t) -> Contains c n -> Contains t n.

(** The canonical empty-result shape, in the words of the specification:
    Root -> Evaluation (projection = nothing sentinel) -> Limit-Skip
    (limit 0, skip 0) -> Generate-Empty. *)
Definition canonicalEOF (root e l c : NodeAddr) (name : string) (refs : ABT) : ABT :=
  RootNode root
    (EvaluationNode e name (LimitSkipNode l 0 0 (CoScanNode c)) (Constant Nothing))
    refs.

Definition isCanonicalEOF (t : ABT) : Prop :=
  exists root e l c name refs, t = canonicalEOF root e l c name refs.

(** The single-stage document of an EOF plan. *)
Definition eofDocument (planNodeId : Z) : BSONObj :=
  [(kStage, BString kEOF); (kNodeId, NumberInt planNodeId)].

(** The scan direction names, as the specification pairs them with the
    scan orders. *)
Definition directionName (o : ScanOrder) : string :=
  match o with
  | Forward => "forward"
  | Reverse => "backward"
  | Random => "random"
  end.

(** The fields named [name] of a document. *)
Definition fieldsNamed (name : string) (o : BSONObj) : list (string * BSONValue) :=
  List.filter (fun kv => String.eqb (fst kv) name) o.

(** The fields a handler appends before it turns to its child. *)
Definition rootFields (props : NodeProps) : BSONObj :=
  [(kStage, BString kRootName); (kProj, todo); (kCE, todo);
   (kCost, NumberDouble (getCost (_cost props)))].

Definition filterFields (props : NodeProps) : BSONObj :=
  [(kStage, BString kFilterName); (kNodeId, NumberInt (_planNodeId props));
   (kFilter, todo); (kCE, todo)].

Definition evalFields (props : NodeProps) : BSONObj :=
  [(kStage, BString kEvalName); (kNodeId, NumberInt (_planNodeId props));
   (kProj, todo); (kCE, todo)].

Definition scanFields (props : NodeProps) (order : ScanOrder) : BSONObj :=
  [(kStage, BString kScanName); (kNodeId, NumberInt (_planNodeId props));
   (kDir, BString (directionName order)); (kProj, todo); (kCE, todo)].

(** What a recursing handler makes of the outcome of its child. *)
Definition nest (bob header : BSONObj) (inner : Outcome BSONObjBuilder) :
  Outcome BSONObjBuilder :=
  match inner with
  | Returns inputBob => Returns (bob ++ header ++ [(kInput, Object inputBob)])
  | Throws code msg => Throws code msg
  | Undefined => Undefined
  end.

(** [visitedHaveProps m t]: every supported node the visitor can arrive
    at from [t] has a record in [m]. *)
Fixpoint visitedHaveProps (m : NodeToGroupPropsMap) (t : ABT) : bool :=
  match t with
  | RootNode self child _ | FilterNode self child _ | EvaluationNode self _ child _ =>
      bool_decide (is_Some (m !! self)) && visitedHaveProps m child
  | PhysicalScanNode self _ _ _ => bool_decide (is_Some (m !! self))
  | _ => true
  end.

(** The canonical shape as a test on the tree. *)
Definition hasCanonicalShape (t : ABT) : bool :=
  match t with
  | RootNode _ (EvaluationNode _ _ (LimitSkipNode _ 0 0 (CoScanNode _)) (Constant Nothing)) _ =>
      true
  | _ => false
  end.

(** A chain of Filter and Evaluation stages that ends in a Physical-Scan,
    with the number of its nodes. *)
Fixpoint scanChainLength (t : ABT) : option nat :=
  match t with
  | PhysicalScanNode _ _ _ _ => Some 1%nat
  | FilterNode _ child _ | EvaluationNode _ _ child _ => S <$> scanChainLength child
  | _ => None
  end.

(** The length of a supported single-child chain: the number of stages
    that follow its Root, which is the number of its child links. *)
Definition chainLength (t : ABT) : option nat :=
  match t with
  | RootNode _ child _ => scanChainLength child
  | _ => None
  end.

(** [nestsTo n doc]: below [doc] there are exactly [n] documents nested
    one in the other under [kInput], each level holding one such field,
    and the innermost is a COLLSCAN stage without that field. *)
Fixpoint nestsTo (n : nat) (doc : BSONObj) : Prop :=
  match n with
  | O => getField doc kStage = Some (BString kScanName) /\ fieldsNamed kInput doc = []
  | S n' => exists inner, fieldsNamed kInput doc = [(kInput, Object inner)] /\ nestsTo n' inner
  end.

(** The stage documents of an output: the document itself and the stage
    documents of its input stage. *)
Inductive StageDoc : BSONObj -> BSONObj -> Prop :=
| stage_top doc : StageDoc doc doc
| stage_input doc inner s :
    getField doc kInput = Some (Object inner) -> StageDoc inner s -> StageDoc doc s.

Definition stageNameOf (n : ABT) : string :=
  match n with
  | RootNode _ _ _ => kRootName
  | FilterNode _ _ _ => kFilterName
  | EvaluationNode _ _ _ _ => kEvalName
  | _ => kScanName
  end.

(** The field table of the specification, per variant: the stage name,
    the extra fields, and the nested input stage where there is a child. *)
Definition tableFields (n : ABT) : list string :=
  match n with
  | RootNode _ _ _ => [kStage; kCost; kProj; kInput]
  | FilterNode _ _ _ => [kStage; kNodeId; kFilter; kInput]
  | EvaluationNode _ _ _ _ => [kStage; kNodeId; kProj; kInput]
  | _ => [kStage; kNodeId; kDir]
  end.

(** The names of the fields the handlers append, in their order. *)
Definition emittedFields (n : ABT) : list string :=
  match n with
  | RootNode _ _ _ => [kStage; kProj; kCE; kCost; kInput]
  | FilterNode _ _ _ => [kStage; kNodeId; kFilter; kCE; kInput]
  | EvaluationNode _ _ _ _ => [kStage; kNodeId; kProj; kCE; kInput]
  | _ => [kStage; kNodeId; kDir; kProj; kCE]
  end.

(** The reading of the field table under which every stage document has
    the fields of the table and no others. *)
Definition stagesFollowTable : Prop :=
  forall (m : NodeToGroupPropsMap) (t : ABT) (doc s : BSONObj),
    isEOFPlan t = Returns false ->
    explain m t = Returns doc ->
    StageDoc doc s ->
    exists n, Reachable t n /\
              getField s kStage = Some (BString (stageNameOf n)) /\
              forall f, In f (fieldNames s) <-> In f (tableFields n).

(** The codes of the property lookups of the handlers. *)
Definition lookupCodes : list Z := [8075600; 8075601; 8075602; 8075603].

(* ===================================================================== *)
(** ** Views of the walk *)
(* ===================================================================== *)

(** The nodes the visitor arrives at from [t], from the top: a handler
    of Root, Filter or Evaluation goes on to its child, every other node
    ends the walk. *)
Fixpoint visited (t : ABT) : list ABT :=
  match t with
  | RootNode _ child _ | FilterNode _ child _ | EvaluationNode _ _ child _ =>
      t :: visited child
  | _ => [t]
  end.

(** The chain below [t] runs through Root, Filter and Evaluation nodes
    down to a Physical-Scan. *)
Fixpoint endsInScan (t : ABT) : bool :=
  match t with
  | RootNode _ child _ | FilterNode _ child _ | EvaluationNode _ _ child _ =>
      endsInScan child
  | PhysicalScanNode _ _ _ _ => true
  | _ => false
  end.

(** The node has a record under its own address. *)
Definition recorded (m : NodeToGroupPropsMap) (n : ABT) : bool :=
  match cast_Node n with
  | Some self => bool_decide (is_Some (m !! self))
  | None => false
  end.

(** A node the walk gets past: a supported variant with a record. *)
Definition faultless (m : NodeToGroupPropsMap) (n : ABT) : bool :=
  supported n && recorded m n.

(** The assertion a node that is not [faultless] is answered with. *)
Definition faultCode (n : ABT) : Z :=
  if supported n then lookupCode n else 8075606.

Definition faultMessage (n : ABT) : string :=
  if supported n then missingProps else unsupportedNode.

(** The values of the stage field along the chain of input stages of a
    document, from the top. *)
Fixpoint stageNames (v : BSONValue) : list (option BSONValue) :=
  match v with
  | Object fields =>
      getField fields kStage ::
      (fix next (l : list (string * BSONValue)) : list (option BSONValue) :=
         match l with
         | [] => []
         | (k, v') :: l' => if String.eqb k kInput then stageNames v' else next l'
         end) fields
  | _ => []
  end.

(** The addresses the walk from [t] looks up in the table [m], in order:
    a handler looks its node up first and goes on to the child only when
    the record is there; an unsupported node is not looked up. *)
Fixpoint lookups (m : NodeToGroupPropsMap) (t : ABT) : list NodeAddr :=
  match t with
  | RootNode self child _ | FilterNode self child _ | EvaluationNode self _ child _ =>
      self :: match m !! self with
              | Some _ => lookups m child
              | None => []
              end
  | PhysicalScanNode self _ _ _ => [self]
  | _ => []
  end.

(** The addresses [explain] looks up: the Root's alone on the EOF path,
    those of the walk otherwise. *)
Definition explainLookups (m : NodeToGroupPropsMap) (t : ABT) : list NodeAddr :=
  match t with
  | RootNode self _ _ => if hasCanonicalShape t then [self] else lookups m t
  | _ => []
  end.

(** The tree with everything removed that no handler reads: the
    expression children, the projection name and the scan definition
    name. *)
Fixpoint skeleton (t : ABT) : ABT :=
  match t with
  | RootNode self child _ => RootNode self (skeleton child) Constant_nothing
  | FilterNode self child _ => FilterNode self (skeleton child) Constant_nothing
  | EvaluationNode self _ child _ =>
      EvaluationNode self "" (skeleton child) Constant_nothing
  | PhysicalScanNode self _ order _ => PhysicalScanNode self "" order Constant_nothing
  | _ => t
  end.

(** The builder after a walk that started with [bob] in it, given the
    outcome of the same walk on an empty builder. *)
Definition onto (bob : BSONObjBuilder) (o : Outcome BSONObjBuilder) : Outcome BSONObjBuilder :=
  match o with
  | Returns doc => Returns (bob ++ doc)
  | Throws code msg => Throws code msg
  | Undefined => Undefined
  end.

(** The plan-node id and the cost a stage shows for a node with the
    record [props]: the Root stage has the cost and no id, the other
    stages the id and no cost. *)
Definition shownNodeId (n : ABT) (props : NodeProps) : option BSONValue :=
  match n with
  | RootNode _ _ _ => None
  | _ => Some (NumberInt (_planNodeId props))
  end.

Definition shownCost (n : ABT) (props : NodeProps) : option BSONValue :=
  match n with
  | RootNode _ _ _ => Some (NumberDouble (getCost (_cost props)))
  | _ => None
  end.

(* ===================================================================== *)
(** ** Sample plans *)
(* ===================================================================== *)

(** 12.5 as a binary float: 25 * 2^-1. *)
Definition cost_12_5 : CostType := mkCost (S754_finite false 25 (-1)).
Definition cost_0 : CostType := mkCost (S754_zero false).

Definition sampleRefs : ABT := OtherABT "References" [].
Definition sampleBind : ABT := OtherABT "ExpressionBinder" [].

(** Root (cost 12.5, id 1) -> Filter (id 2) -> PhysicalScan (id 3, forward). *)
Definition samplePlan : ABT :=
  RootNode 11
    (FilterNode 12 (PhysicalScanNode 13 "coll" Forward sampleBind) (Constant (Boolean true)))
    sampleRefs.

Definition sampleProps : NodeToGroupPropsMap :=
  <[11%positive := mkNodeProps 1 cost_12_5]>
    (<[12%positive := mkNodeProps 2 cost_0]>
       (<[13%positive := mkNodeProps 3 cost_0]> ∅)).

(** The same plan when the Filter was left without a record. *)
Definition filterlessProps : NodeToGroupPropsMap :=
  <[11%positive := mkNodeProps 1 cost_12_5]>
    (<[13%positive := mkNodeProps 3 cost_0]> ∅).

(** The EOF plan, and a table that knows its Root only. *)
Definition sampleEOF : ABT := canonicalEOF 21 22 23 24 "p" sampleRefs.

Definition rootOnlyProps : NodeToGroupPropsMap :=
  {[ 21%positive := mkNodeProps 7 cost_0 ]}.

(** The EOF plan but for its skip bound: Limit-Skip (0, 1). *)
Definition sampleSkipOne : ABT :=
  RootNode 21
    (EvaluationNode 22 "p" (LimitSkipNode 23 0 1 (CoScanNode 24)) (Constant Nothing))
    sampleRefs.

(** What [explain] makes of [samplePlan]. *)
Definition sampleOutput : BSONObj :=
  [(kStage, BString "ROOT"); (kProj, todo); (kCE, todo);
   (kCost, NumberDouble (S754_finite false 25 (-1)));
   (kInput, Object
      [(kStage, BString "FILTER"); (kNodeId, NumberInt 2); (kFilter, todo); (kCE, todo);
       (kInput, Object
          [(kStage, BString "COLLSCAN"); (kNodeId, NumberInt 3);
           (kDir, BString "forward"); (kProj, todo); (kCE, todo)])])].

(** The EOF plan but for its projection, the constant 5. *)
Definition sampleProjFive : ABT :=
  RootNode 21
    (EvaluationNode 22 "p" (LimitSkipNode 23 0 0 (CoScanNode 24)) (Constant (NumberInt64 5)))
    sampleRefs.

(** A Root without a record above a Generate-Empty node. *)
Definition sampleBareRoot : ABT := RootNode 31 (CoScanNode 32) sampleRefs.

(** [samplePlan] with other expressions and another collection name. *)
Definition samplePlanRenamed : ABT :=
  RootNode 11
    (FilterNode 12 (PhysicalScanNode 13 "other" Forward sampleRefs) (Constant Nothing))
    sampleBind.

(** The part of [samplePlan] below its Root: a tree with a Filter on
    top. *)
Definition sampleFilterTop : ABT :=
  FilterNode 12 (PhysicalScanNode 13 "coll" Forward sampleBind) (Constant (Boolean true)).

(** A table for [samplePlan] that knows the Root only. *)
Definition sampleRootRecord : NodeToGroupPropsMap :=
  {[ 11%positive := mkNodeProps 1 cost_12_5 ]}.

(** [rootOnlyProps] with a record for the Evaluation node of [sampleEOF]. *)
Definition sampleEvalRecord : NodeToGroupPropsMap :=
  <[22%positive := mkNodeProps 8 cost_0]> rootOnlyProps.

(** A Root above a Limit-Skip above a scan: the walk ends at the
    Limit-Skip. *)
Definition sampleLimited : ABT :=
  RootNode 11
    (LimitSkipNode 12 5 0 (PhysicalScanNode 13 "coll" Forward sampleBind))
    sampleRefs.

(* ===================================================================== *)
(** ** Basic facts *)
(* ===================================================================== *)

Section Facts.

Variable m : NodeToGroupPropsMap.

Lemma findProps_Some code self props :
  m !! self = Some props -> findProps m code self = Returns props.
Proof.
  intros H. unfold findProps. rewrite H.
  rewrite bool_decide_eq_true_2 by eauto. reflexivity.
Qed.

Lemma findProps_None code self :
  m !! self = None -> findProps m code self = Throws code missingProps.
Proof.
  intros H. unfold findProps. rewrite H.
  rewrite bool_decide_eq_false_2 by (intros [? ?]; discriminate). reflexivity.
Qed.

Lemma ABT_eqb_nothing p :
  ABT_eqb p Constant_nothing = true <-> p = Constant Nothing.
Proof.
  split.
  - destruct p as [| | | | | | [] |]; simpl; congruence.
  - intros ->. reflexivity.
Qed.

Lemma ABT_eqb_eofChild x :
  ABT_eqb x (make_LimitSkipNode 0 0 make_CoScanNode) = true <->
  exists l c, x = LimitSkipNode l 0 0 (CoScanNode c).
Proof.
  split.
  - destruct x as [| | | |l lim sk ch| | |]; simpl; try discriminate.
    destruct ch; simpl; rewrite ?andb_false_r; try discriminate.
    rewrite andb_true_r, andb_true_iff, !Z.eqb_eq.
    intros [-> ->]. eauto.
  - intros (l & c & ->). reflexivity.
Qed.

(** [isEOFPlan] answers for every tree whose top node is a Root, and its
    answer is [true] exactly on the canonical shape. *)
Lemma isEOFPlan_Root self child refs :
  exists b, isEOFPlan (RootNode self child refs) = Returns b /\
            (b = true <-> isCanonicalEOF (RootNode self child refs)).
Proof.
  unfold isEOFPlan.
  destruct child as [| |e name evalChild proj| | | | |];
    try (exists false; split; [reflexivity|];
         split; [discriminate | intros (?&?&?&?&?&?&[=])]).
  destruct (ABT_eqb proj Constant_nothing) eqn:Hp; simpl.
  - apply ABT_eqb_nothing in Hp as ->.
    eexists; split; [reflexivity|].
    rewrite ABT_eqb_eofChild. split.
    + intros (l & c & ->). by exists self, e, l, c, name, refs.
    + intros (?&?&l&c&?&?&[= -> -> -> -> ->]). eauto.
  - exists false. split; [reflexivity|].
    split; [discriminate|].
    intros (?&?&?&?&?&?&[= -> -> -> -> ->]). discriminate.
Qed.

Lemma isEOFPlan_true_inv t :
  isEOFPlan t = Returns true -> isCanonicalEOF t.
Proof.
  destruct t; try discriminate.
  intros H. destruct (isEOFPlan_Root self t1 t2) as (b & Hb & Hiff).
  rewrite H in Hb. injection Hb as <-. by apply Hiff.
Qed.

End Facts.

(* ===================================================================== *)
(** ** The handlers, one equation each *)
(* ===================================================================== *)

Section Handlers.

Variable m : NodeToGroupPropsMap.

Lemma walk_missing n self bob :
  supported n = true -> cast_Node n = Some self -> m !! self = None ->
  generateExplain m n bob = Throws (lookupCode n) missingProps.
Proof.
  intros Hs Ha Hm.
  destruct n; try discriminate; injection Ha as ->; simpl;
    unfold walk_RootNode, walk_FilterNode, walk_EvaluationNode, walk_PhysicalScanNode;
    rewrite (findProps_None _ _ _ Hm); reflexivity.
Qed.

Lemma walk_unsupported n bob :
  supported n = false ->
  generateExplain m n bob =
    Throws 8075606 unsupportedNode.
Proof. destruct n; try discriminate; reflexivity. Qed.

Lemma walk_Root self child refs bob props :
  m !! self = Some props ->
  generateExplain m (RootNode self child refs) bob =
    nest bob (rootFields props) (generateExplain m child []).
Proof.
  intros Hm. simpl. unfold walk_RootNode, subobj.
  rewrite (findProps_Some _ _ _ _ Hm). simpl.
  destruct (generateExplain m child []); simpl; try reflexivity.
  unfold append, obj. by rewrite <- !app_assoc.
Qed.

Lemma walk_Filter self child expr bob props :
  m !! self = Some props ->
  generateExplain m (FilterNode self child expr) bob =
    nest bob (filterFields props) (generateExplain m child []).
Proof.
  intros Hm. simpl. unfold walk_FilterNode, subobj.
  rewrite (findProps_Some _ _ _ _ Hm). simpl.
  destruct (generateExplain m child []); simpl; try reflexivity.
  unfold append, obj. by rewrite <- !app_assoc.
Qed.

Lemma walk_Evaluation self name child proj bob props :
  m !! self = Some props ->
  generateExplain m (EvaluationNode self name child proj) bob =
    nest bob (evalFields props) (generateExplain m child []).
Proof.
  intros Hm. simpl. unfold walk_EvaluationNode, subobj.
  rewrite (findProps_Some _ _ _ _ Hm). simpl.
  destruct (generateExplain m child []); simpl; try reflexivity.
  unfold append, obj. by rewrite <- !app_assoc.
Qed.

Lemma walk_PhysicalScan self name order bind bob props :
  m !! self = Some props ->
  generateExplain m (PhysicalScanNode self name order bind) bob =
    Returns (bob ++ scanFields props order).
Proof.
  intros Hm. simpl. unfold walk_PhysicalScanNode.
  rewrite (findProps_Some _ _ _ _ Hm). simpl.
  destruct order; unfold append; by rewrite <- !app_assoc.
Qed.

(** A walk that returns has found the properties of its first node. *)
Lemma walk_returns_props n bob doc :
  generateExplain m n bob = Returns doc ->
  supported n = true /\ exists self props, cast_Node n = Some self /\ m !! self = Some props.
Proof.
  intros H. destruct (supported n) eqn:Hs.
  - split; [reflexivity|].
    destruct (cast_Node n) as [self|] eqn:Ha; [|by destruct n].
    destruct (m !! self) as [props|] eqn:Hm; [eauto|].
    rewrite (walk_missing _ _ _ Hs Ha Hm) in H. discriminate.
  - rewrite walk_unsupported in H by done. discriminate.
Qed.

Lemma generateEOFPlan_Root self child refs :
  generateEOFPlan m (RootNode self child refs) =
    match m !! self with
    | Some props => Returns (eofDocument (_planNodeId props))
    | None => Throws 8075605 missingProps
    end.
Proof.
  unfold generateEOFPlan. simpl.
  destruct (m !! self) as [props|]; reflexivity.
Qed.

End Handlers.

(* ===================================================================== *)
(** ** The EOF plan *)
(* ===================================================================== *)

Lemma hasCanonicalShape_spec t :
  hasCanonicalShape t = true <-> isCanonicalEOF t.
Proof.
  split.
  - destruct t as [root ch refs| | | | | | |]; try discriminate.
    destruct ch as [| |e name ech proj| | | | |]; try discriminate.
    destruct ech as [| | | |l lim sk c| | |]; try discriminate.
    destruct lim; try discriminate. destruct sk; try discriminate.
    destruct c; try discriminate.
    destruct proj as [| | | | | |[]|]; try discriminate.
    intros _. by exists root, e, l, self, name, refs.
  - intros (?&?&?&?&?&?&->). reflexivity.
Qed.

Lemma isEOFPlan_Root_shape self child refs :
  isEOFPlan (RootNode self child refs) =
    Returns (hasCanonicalShape (RootNode self child refs)).
Proof.
  destruct (isEOFPlan_Root self child refs) as (b & -> & Hb).
  f_equal. rewrite <- hasCanonicalShape_spec in Hb.
  destruct b, (hasCanonicalShape (RootNode self child refs)); intuition congruence.
Qed.

Example isEOFPlan_skip_one : isEOFPlan sampleSkipOne = Returns false.
Proof. reflexivity. Qed.

Example isEOFPlan_projection_five : isEOFPlan sampleProjFive = Returns false.
Proof. reflexivity. Qed.

Example isEOFPlan_filter_child : isEOFPlan samplePlan = Returns false.
Proof. reflexivity. Qed.

Example explain_skip_one_walks :
  explain sampleProps sampleSkipOne = Throws 8075600 missingProps /\
  explain rootOnlyProps sampleSkipOne = Throws 8075602 missingProps.
Proof. split; reflexivity. Qed.

(** C3.  On the canonical shape [isEOFPlan] returns true, and [explain]
    returns the document of the two fields stage = "EOF" and the plan-node
    id of the Root's record, whatever the table holds for the inner
    nodes; the document has no input stage. *)
Theorem explain_canonicalEOF (m : NodeToGroupPropsMap) root e l c name refs props :
  m !! root = Some props ->
  isEOFPlan (canonicalEOF root e l c name refs) = Returns true /\
  explain m (canonicalEOF root e l c name refs) =
    Returns [(kStage, BString kEOF); (kNodeId, NumberInt (_planNodeId props))] /\
  hasField [(kStage, BString kEOF); (kNodeId, NumberInt (_planNodeId props))] kInput = false.
Proof.
  intros Hm. split; [reflexivity|]. split; [|reflexivity].
  unfold explain, canonicalEOF. rewrite isEOFPlan_Root_shape. simpl.
  rewrite generateEOFPlan_Root, Hm. reflexivity.
Qed.

Lemma explain_canonicalEOF_witness :
  isEOFPlan sampleEOF = Returns true /\
  explain rootOnlyProps sampleEOF = Returns [(kStage, BString kEOF); (kNodeId, NumberInt 7)] /\
  hasField [(kStage, BString kEOF); (kNodeId, NumberInt 7)] kInput = false.
Proof.
  apply (explain_canonicalEOF rootOnlyProps 21 22 23 24 "p" sampleRefs
           (mkNodeProps 7 cost_0)).
  reflexivity.
Defined.

(** C10.  On a plan that [isEOFPlan] accepts, the outcome of [explain] is
    a function of the Root's record alone: the EOF document when the
    record is there, the missing-property assertion 8075605 when it is
    not; two tables that agree on the Root give the same outcome. *)
Theorem eof_path_reads_root_only (m : NodeToGroupPropsMap) (t : ABT) :
  isEOFPlan t = Returns true ->
  exists root,
    cast_Node t = Some root /\
    explain m t =
      match m !! root with
      | Some props => Returns (eofDocument (_planNodeId props))
      | None => Throws 8075605 missingProps
      end /\
    forall m' : NodeToGroupPropsMap, m' !! root = m !! root -> explain m' t = explain m t.
Proof.
  intros Heof. destruct t as [root child refs| | | | | | |]; try discriminate.
  exists root. split; [reflexivity|].
  assert (Hall : forall m0 : NodeToGroupPropsMap,
             explain m0 (RootNode root child refs) =
               match m0 !! root with
               | Some props => Returns (eofDocument (_planNodeId props))
               | None => Throws 8075605 missingProps
               end).
  { intros m0. unfold explain. rewrite Heof. simpl. apply generateEOFPlan_Root. }
  split; [apply Hall|].
  intros m' Hm'. by rewrite !Hall, Hm'.
Qed.

Lemma eof_path_reads_root_only_witness :
  rootOnlyProps !! 22%positive = None /\
  rootOnlyProps !! 23%positive = None /\
  rootOnlyProps !! 24%positive = None /\
  explain rootOnlyProps sampleEOF = Returns (eofDocument 7) /\
  explain ∅ sampleEOF = Throws 8075605 missingProps.
Proof.
  do 3 (split; [reflexivity|]).
  destruct (eof_path_reads_root_only rootOnlyProps sampleEOF eq_refl)
    as (root & Hroot & Hexplain & _).
  destruct (eof_path_reads_root_only ∅ sampleEOF eq_refl)
    as (root' & Hroot' & Hexplain' & _).
  injection Hroot as <-. injection Hroot' as <-.
  split; [exact Hexplain | exact Hexplain'].
Defined.

(* ===================================================================== *)
(** ** The scan direction *)
(* ===================================================================== *)

(** C5.  The stage a Physical-Scan node is rendered to has one direction
    field; its value is the name of the node's scan order, one of
    "forward", "backward" and "random", and distinct orders have distinct
    names. *)
Theorem scan_direction (m : NodeToGroupPropsMap) self name order bind doc :
  generateExplain m (PhysicalScanNode self name order bind) [] = Returns doc ->
  fieldsNamed kDir doc = [(kDir, BString (directionName order))] /\
  directionName Forward = "forward" /\
  directionName Reverse = "backward" /\
  directionName Random = "random" /\
  forall order', directionName order' = directionName order -> order' = order.
Proof.
  intros Hdoc.
  destruct (walk_returns_props _ _ _ _ Hdoc) as (_ & a & props & [= <-] & Hm).
  rewrite (walk_PhysicalScan _ _ _ _ _ _ _ Hm) in Hdoc. injection Hdoc as <-.
  split; [by destruct order|].
  repeat (split; [reflexivity|]).
  intros order'. by destruct order, order'.
Qed.

Lemma scan_direction_witness :
  fieldsNamed kDir
    [(kStage, BString kScanName); (kNodeId, NumberInt 3); (kDir, BString "backward");
     (kProj, todo); (kCE, todo)] = [(kDir, BString "backward")].
Proof.
  exact (proj1 (scan_direction sampleProps 13 "coll" Reverse sampleBind _ eq_refl)).
Defined.

(* ===================================================================== *)
(** ** The fatal conditions of the walk *)
(* ===================================================================== *)

Lemma nest_Throws bob header inner code msg :
  inner = Throws code msg -> nest bob header inner = Throws code msg.
Proof. by intros ->. Qed.

Lemma lookupCode_In n : In (lookupCode n) lookupCodes.
Proof. destruct n; simpl; tauto. Qed.

Lemma reachable_missing (m : NodeToGroupPropsMap) t n self :
  Reachable t n -> supported n = true -> cast_Node n = Some self -> m !! self = None ->
  forall bob, exists code,
    In code lookupCodes /\ generateExplain m t bob = Throws code missingProps.
Proof.
  intros Hreach Hs Ha Hm.
  induction Hreach as [t|a child refs n _ IH|a child expr n _ IH|a name child proj n _ IH];
    intros bob.
  - exists (lookupCode t). split; [apply lookupCode_In|]. by eapply walk_missing.
  - destruct (m !! a) as [props|] eqn:Hroot.
    + destruct (IH Hs Ha []) as (code & Hin & Hthrow). exists code. split; [done|].
      rewrite (walk_Root _ _ _ _ _ _ Hroot). by apply nest_Throws.
    + exists 8075600. split; [simpl; tauto|]. by apply (walk_missing m (RootNode a child refs) a).
  - destruct (m !! a) as [props|] eqn:Hroot.
    + destruct (IH Hs Ha []) as (code & Hin & Hthrow). exists code. split; [done|].
      rewrite (walk_Filter _ _ _ _ _ _ Hroot). by apply nest_Throws.
    + exists 8075601. split; [simpl; tauto|].
      by apply (walk_missing m (FilterNode a child expr) a).
  - destruct (m !! a) as [props|] eqn:Hroot.
    + destruct (IH Hs Ha []) as (code & Hin & Hthrow). exists code. split; [done|].
      rewrite (walk_Evaluation _ _ _ _ _ _ _ Hroot). by apply nest_Throws.
    + exists 8075602. split; [simpl; tauto|].
      by apply (walk_missing m (EvaluationNode a name child proj) a).
Qed.

Lemma has_record (m : NodeToGroupPropsMap) self :
  bool_decide (is_Some (m !! self)) = true -> exists props, m !! self = Some props.
Proof. intros H. apply bool_decide_eq_true_1 in H. exact H. Qed.

Lemma no_record (m : NodeToGroupPropsMap) self :
  bool_decide (is_Some (m !! self)) = false -> m !! self = None.
Proof.
  intros H. apply bool_decide_eq_false_1 in H.
  destruct (m !! self); [|done]. exfalso. eauto.
Qed.

Lemma visited_unrecorded (m : NodeToGroupPropsMap) t :
  visitedHaveProps m t = false ->
  exists n self, Reachable t n /\ supported n = true /\
                 cast_Node n = Some self /\ m !! self = None.
Proof.
  induction t as [a child IH refs _|a child IH expr _|a name child IH proj _
                 |a name order bind _| | | |]; simpl; try discriminate.
  - intros [H|H]%andb_false_iff.
    + exists (RootNode a child refs), a. eauto using reach_here, no_record.
    + destruct (IH H) as (n & self & ? & ? & ? & ?).
      exists n, self. eauto using reach_Root.
  - intros [H|H]%andb_false_iff.
    + exists (FilterNode a child expr), a. eauto using reach_here, no_record.
    + destruct (IH H) as (n & self & ? & ? & ? & ?).
      exists n, self. eauto using reach_Filter.
  - intros [H|H]%andb_false_iff.
    + exists (EvaluationNode a name child proj), a. eauto using reach_here, no_record.
    + destruct (IH H) as (n & self & ? & ? & ? & ?).
      exists n, self. eauto using reach_Evaluation.
  - intros H. exists (PhysicalScanNode a name order bind), a.
    eauto using reach_here, no_record.
Qed.

Lemma nest_Throws_inv bob header inner code msg :
  nest bob header inner = Throws code msg -> inner = Throws code msg.
Proof. destruct inner; simpl; congruence. Qed.

Lemma visited_recorded (m : NodeToGroupPropsMap) t :
  visitedHaveProps m t = true ->
  forall bob code, generateExplain m t bob <> Throws code missingProps.
Proof.
  induction t as [a child IH refs _|a child IH expr _|a name child IH proj _
                 |a name order bind _| | | |]; simpl visitedHaveProps;
    intros Hv bob code; try (simpl; discriminate).
  - apply andb_true_iff in Hv as [[props Hm]%has_record Hc].
    rewrite (walk_Root _ _ _ _ _ _ Hm). intros H%nest_Throws_inv. by eapply IH.
  - apply andb_true_iff in Hv as [[props Hm]%has_record Hc].
    rewrite (walk_Filter _ _ _ _ _ _ Hm). intros H%nest_Throws_inv. by eapply IH.
  - apply andb_true_iff in Hv as [[props Hm]%has_record Hc].
    rewrite (walk_Evaluation _ _ _ _ _ _ _ Hm). intros H%nest_Throws_inv. by eapply IH.
  - apply has_record in Hv as [props Hm].
    rewrite (walk_PhysicalScan _ _ _ _ _ _ _ Hm). discriminate.
Qed.

Lemma explain_Throws (m : NodeToGroupPropsMap) t code msg :
  isEOFPlan t = Returns false ->
  generateExplain m t [] = Throws code msg -> explain m t = Throws code msg.
Proof.
  intros Heof Hwalk. unfold explain, explainWalk. rewrite Heof. simpl.
  by rewrite Hwalk.
Qed.

(** C6.  The walk leaves through the missing-property assertion exactly
    when a supported node the visitor can arrive at has no record in the
    table; it then returns no document, and on a plan that is not the EOF
    plan [explain] leaves through the same assertion. *)
Theorem missing_property_is_fatal (m : NodeToGroupPropsMap) (t : ABT) (bob : BSONObjBuilder) :
  ((exists code, generateExplain m t bob = Throws code missingProps) <->
   (exists n self, Reachable t n /\ supported n = true /\
                   cast_Node n = Some self /\ m !! self = None)) /\
  (forall code, generateExplain m t bob = Throws code missingProps ->
                In code lookupCodes /\ returned (generateExplain m t bob) = false) /\
  (forall code, isEOFPlan t = Returns false ->
                generateExplain m t [] = Throws code missingProps ->
                explain m t = Throws code missingProps).
Proof.
  split; [split|split].
  - intros [code Hthrow].
    destruct (visitedHaveProps m t) eqn:Hv.
    + by destruct (visited_recorded m t Hv bob code).
    + by apply visited_unrecorded.
  - intros (n & self & Hreach & Hs & Ha & Hm).
    destruct (reachable_missing m t n self Hreach Hs Ha Hm bob) as (code & _ & H). eauto.
  - intros code Hthrow. split; [|by rewrite Hthrow].
    destruct (visitedHaveProps m t) eqn:Hv.
    + by destruct (visited_recorded m t Hv bob code).
    + destruct (visited_unrecorded m t Hv) as (n & self & Hreach & Hs & Ha & Hm).
      destruct (reachable_missing m t n self Hreach Hs Ha Hm bob) as (code' & Hin & H).
      rewrite Hthrow in H. by injection H as ->.
  - intros code. apply explain_Throws.
Qed.

Lemma missing_property_is_fatal_witness :
  (exists code, generateExplain filterlessProps samplePlan [] = Throws code missingProps) /\
  ~ (exists code, generateExplain sampleProps samplePlan [] = Throws code missingProps).
Proof.
  split.
  - apply (proj1 (missing_property_is_fatal filterlessProps samplePlan [])).
    exists (FilterNode 12 (PhysicalScanNode 13 "coll" Forward sampleBind)
              (Constant (Boolean true))), 12%positive.
    repeat split; try reflexivity. apply reach_Root, reach_here.
  - intros H.
    apply (proj1 (missing_property_is_fatal sampleProps samplePlan [])) in H.
    destruct H as (n & self & Hreach & Hs & Ha & Hm).
    inversion Hreach as [|? ? ? ? Hreach'| |]; subst.
    + injection Ha as <-. discriminate Hm.
    + inversion Hreach' as [| |? ? ? ? Hreach''|]; subst.
      * injection Ha as <-. discriminate Hm.
      * inversion Hreach''; subst. injection Ha as <-. discriminate Hm.
Defined.

Lemma contains_unsupported_reachable t u :
  Contains t u -> supported u = false ->
  exists u', Reachable t u' /\ supported u' = false.
Proof.
  intros Hc Hu. induction Hc as [t|t c n Hin _ IH].
  - exists t. eauto using reach_here.
  - destruct (IH Hu) as (u' & Hreach & Hu').
    destruct t; simpl in Hin;
      try (destruct Hin as [<-|[]]);
      eauto using reach_here, reach_Root, reach_Filter, reach_Evaluation.
    destruct Hin.
Qed.

Lemma reachable_unsupported (m : NodeToGroupPropsMap) t u :
  Reachable t u -> supported u = false -> visitedHaveProps m t = true ->
  forall bob, generateExplain m t bob = Throws 8075606 unsupportedNode.
Proof.
  intros Hreach Hu.
  induction Hreach as [t|a child refs n _ IH|a child expr n _ IH|a name child proj n _ IH];
    simpl visitedHaveProps; intros Hv bob.
  - by apply walk_unsupported.
  - apply andb_true_iff in Hv as [[props Hm]%has_record Hc].
    rewrite (walk_Root _ _ _ _ _ _ Hm). apply nest_Throws. by apply IH.
  - apply andb_true_iff in Hv as [[props Hm]%has_record Hc].
    rewrite (walk_Filter _ _ _ _ _ _ Hm). apply nest_Throws. by apply IH.
  - apply andb_true_iff in Hv as [[props Hm]%has_record Hc].
    rewrite (walk_Evaluation _ _ _ _ _ _ _ Hm). apply nest_Throws. by apply IH.
Qed.

(** C7, as the code has it.  A walk over a tree that contains a node of
    an unsupported variant never returns a document.  When every supported
    node the visitor arrives at has its record, the walk reaches the
    default case and leaves through the unsupported-variant assertion
    8075606; otherwise the lookup of a node above fails first and the walk
    leaves through the missing-property assertion. *)
Theorem unsupported_variant_is_fatal (m : NodeToGroupPropsMap) (t u : ABT)
    (bob : BSONObjBuilder) :
  Contains t u -> supported u = false ->
  returned (generateExplain m t bob) = false /\
  if visitedHaveProps m t
  then generateExplain m t bob = Throws 8075606 unsupportedNode
  else exists code, In code lookupCodes /\
                    generateExplain m t bob = Throws code missingProps.
Proof.
  intros Hc Hu.
  destruct (contains_unsupported_reachable t u Hc Hu) as (u' & Hreach & Hu').
  destruct (visitedHaveProps m t) eqn:Hv.
  - rewrite (reachable_unsupported m t u' Hreach Hu' Hv bob). by split.
  - destruct (visited_unrecorded m t Hv) as (n & self & Hr & Hs & Ha & Hm).
    destruct (reachable_missing m t n self Hr Hs Ha Hm bob) as (code & Hin & H).
    rewrite H. split; [reflexivity|]. eauto.
Qed.

Lemma unsupported_variant_is_fatal_witness :
  returned (generateExplain rootOnlyProps sampleEOF []) = false /\
  generateExplain rootOnlyProps sampleEOF [] = Throws 8075602 missingProps.
Proof.
  destruct (unsupported_variant_is_fatal rootOnlyProps sampleEOF (CoScanNode 24) [])
    as [Hret Hcode].
  - apply contains_child with (c := EvaluationNode 22 "p"
        (LimitSkipNode 23 0 0 (CoScanNode 24)) (Constant Nothing)); [simpl; tauto|].
    apply contains_child with (c := LimitSkipNode 23 0 0 (CoScanNode 24)); [simpl; tauto|].
    apply contains_child with (c := CoScanNode 24); [simpl; tauto|].
    apply contains_here.
  - reflexivity.
  - split; [exact Hret | reflexivity].
Defined.

(** C7, as it is stated, fails: below a Root that has no record, the
    Generate-Empty node is never dispatched on, and the walk leaves
    through the missing-property assertion of the Root. *)
Lemma unsupported_below_unrecorded_root :
  Contains sampleBareRoot (CoScanNode 32) /\
  supported (CoScanNode 32) = false /\
  generateExplain ∅ sampleBareRoot [] = Throws 8075600 missingProps /\
  generateExplain ∅ sampleBareRoot [] <> Throws 8075606 unsupportedNode.
Proof.
  split; [|split; [reflexivity|split; [reflexivity|discriminate]]].
  apply contains_child with (c := CoScanNode 32); [simpl; tauto|apply contains_here].
Qed.

(* ===================================================================== *)
(** ** The result of explain *)
(* ===================================================================== *)

(** C8.  On a plan that is not the EOF plan, [explain] is the walk
    followed by the test of its result: an empty document is answered by
    the assertion 8075604 and is not returned.  Every document [explain]
    returns on this path is non-empty. *)
Theorem explain_result_not_empty (m : NodeToGroupPropsMap) (t : ABT) :
  isEOFPlan t = Returns false ->
  explain m t =
    (result ← generateExplain m t [];
     if isEmpty result then Throws 8075604 noNodes else Returns result) /\
  match explain m t with
  | Returns doc => isEmpty doc = false
  | _ => True
  end.
Proof.
  intros Heof. unfold explain, explainWalk. rewrite Heof. simpl.
  destruct (generateExplain m t []) as [result| |]; simpl; [|done..].
  unfold obj. destruct result; simpl; done.
Qed.

Lemma explain_result_not_empty_witness :
  match explain sampleProps samplePlan with
  | Returns doc => isEmpty doc = false
  | _ => True
  end.
Proof.
  exact (proj2 (explain_result_not_empty sampleProps samplePlan eq_refl)).
Defined.

(* ===================================================================== *)
(** ** The fields of the stage documents *)
(* ===================================================================== *)

Example explain_samplePlan : explain sampleProps samplePlan = Returns sampleOutput.
Proof. reflexivity. Qed.

Lemma nest_Returns_inv bob header inner doc :
  nest bob header inner = Returns doc ->
  exists inputBob, inner = Returns inputBob /\
                   doc = bob ++ header ++ [(kInput, Object inputBob)].
Proof. destruct inner; simpl; intros [= <-] || discriminate. eauto. Qed.

(** The document a returning walk has built, by the variant of its node. *)
Lemma walk_Returns_inv (m : NodeToGroupPropsMap) n doc :
  generateExplain m n [] = Returns doc ->
  exists self props, cast_Node n = Some self /\ m !! self = Some props /\
    match n with
    | RootNode _ child _ =>
        exists inner, generateExplain m child [] = Returns inner /\
                      doc = rootFields props ++ [(kInput, Object inner)]
    | FilterNode _ child _ =>
        exists inner, generateExplain m child [] = Returns inner /\
                      doc = filterFields props ++ [(kInput, Object inner)]
    | EvaluationNode _ _ child _ =>
        exists inner, generateExplain m child [] = Returns inner /\
                      doc = evalFields props ++ [(kInput, Object inner)]
    | PhysicalScanNode _ _ order _ => doc = scanFields props order
    | _ => False
    end.
Proof.
  intros H. destruct (walk_returns_props _ _ _ _ H) as (Hs & self & props & Ha & Hm).
  exists self, props. split; [done|]. split; [done|].
  destruct n; try discriminate; injection Ha as ->.
  - rewrite (walk_Root _ _ _ _ _ _ Hm) in H.
    apply nest_Returns_inv in H as (inner & ? & ->). eauto.
  - rewrite (walk_Filter _ _ _ _ _ _ Hm) in H.
    apply nest_Returns_inv in H as (inner & ? & ->). eauto.
  - rewrite (walk_Evaluation _ _ _ _ _ _ _ Hm) in H.
    apply nest_Returns_inv in H as (inner & ? & ->). eauto.
  - rewrite (walk_PhysicalScan _ _ _ _ _ _ _ Hm) in H. by injection H as <-.
Qed.

Lemma walk_fields (m : NodeToGroupPropsMap) n doc :
  generateExplain m n [] = Returns doc ->
  supported n = true /\
  getField doc kStage = Some (BString (stageNameOf n)) /\
  fieldNames doc = emittedFields n.
Proof.
  intros H. destruct (walk_returns_props _ _ _ _ H) as (Hs & _).
  split; [done|].
  destruct (walk_Returns_inv _ _ _ H) as (self & props & _ & _ & Hdoc).
  destruct n; try done.
  - destruct Hdoc as (inner & _ & ->). by split.
  - destruct Hdoc as (inner & _ & ->). by split.
  - destruct Hdoc as (inner & _ & ->). by split.
  - subst doc. by split.
Qed.

(** Every stage document of an output is what the walk makes of a node
    the visitor arrives at. *)
Lemma stage_of_node (m : NodeToGroupPropsMap) t doc s :
  generateExplain m t [] = Returns doc -> StageDoc doc s ->
  exists n, Reachable t n /\ generateExplain m n [] = Returns s.
Proof.
  intros Hwalk Hstage. revert t Hwalk.
  induction Hstage as [doc|doc inner s Hget _ IH]; intros t Hwalk.
  - exists t. eauto using reach_here.
  - destruct (walk_Returns_inv _ _ _ Hwalk) as (self & props & _ & _ & Hdoc).
    destruct t; try done.
    + destruct Hdoc as (inner' & Hchild & ->). injection Hget as <-.
      destruct (IH _ Hchild) as (n & ? & ?). eauto using reach_Root.
    + destruct Hdoc as (inner' & Hchild & ->). injection Hget as <-.
      destruct (IH _ Hchild) as (n & ? & ?). eauto using reach_Filter.
    + destruct Hdoc as (inner' & Hchild & ->). injection Hget as <-.
      destruct (IH _ Hchild) as (n & ? & ?). eauto using reach_Evaluation.
    + subst doc. discriminate Hget.
Qed.

Lemma explain_Returns_walk (m : NodeToGroupPropsMap) t doc :
  isEOFPlan t = Returns false -> explain m t = Returns doc ->
  generateExplain m t [] = Returns doc.
Proof.
  intros Heof. unfold explain, explainWalk. rewrite Heof. simpl.
  destruct (generateExplain m t []) as [result| |]; simpl; try discriminate.
  unfold obj. destruct result; simpl; congruence.
Qed.

Lemma explain_walk_Returns (m : NodeToGroupPropsMap) t doc :
  isEOFPlan t = Returns false -> generateExplain m t [] = Returns doc ->
  isEmpty doc = false -> explain m t = Returns doc.
Proof.
  intros Heof Hwalk Hdoc. unfold explain, explainWalk. rewrite Heof. simpl.
  rewrite Hwalk. simpl. unfold obj. by rewrite Hdoc.
Qed.

(** C2, as the code has it.  Every stage document of the output of a
    plan that is not the EOF plan renders a supported node the visitor
    arrives at, carries the stage name of its variant, and has the fields
    the handler of the variant appends, in this order: Root has stage,
    projections, cardinalityEstimate, costEstimate, inputStage; Filter has
    stage, planNodeId, filter, cardinalityEstimate, inputStage; Evaluation
    has stage, planNodeId, projections, cardinalityEstimate, inputStage;
    Physical-Scan has stage, planNodeId, direction, projections,
    cardinalityEstimate. *)
Theorem stage_documents_fields (m : NodeToGroupPropsMap) (t : ABT) (doc s : BSONObj) :
  isEOFPlan t = Returns false ->
  explain m t = Returns doc ->
  StageDoc doc s ->
  exists n, Reachable t n /\ supported n = true /\
            generateExplain m n [] = Returns s /\
            getField s kStage = Some (BString (stageNameOf n)) /\
            fieldNames s = emittedFields n.
Proof.
  intros Heof Hexplain Hstage.
  apply explain_Returns_walk in Hexplain; [|done].
  destruct (stage_of_node m t doc s Hexplain Hstage) as (n & Hreach & Hn).
  destruct (walk_fields m n s Hn) as (Hs & Hname & Hfields).
  exists n. eauto 6.
Qed.

Lemma stage_documents_fields_witness :
  exists n, Reachable samplePlan n /\ supported n = true /\
            generateExplain sampleProps n [] = Returns sampleOutput /\
            getField sampleOutput kStage = Some (BString (stageNameOf n)) /\
            fieldNames sampleOutput = emittedFields n.
Proof.
  exact (stage_documents_fields sampleProps samplePlan sampleOutput sampleOutput
           eq_refl eq_refl (stage_top sampleOutput)).
Defined.

(** C2, as it is stated, fails: the Root stage of the sample plan holds a
    cardinalityEstimate field, which the field table has for no
    variant. *)
Lemma stages_have_more_fields : ~ stagesFollowTable.
Proof.
  intros H.
  destruct (H sampleProps samplePlan sampleOutput sampleOutput
              eq_refl eq_refl (stage_top sampleOutput)) as (n & _ & _ & Hfields).
  assert (Hin : In kCE (fieldNames sampleOutput)) by (simpl; tauto).
  apply Hfields in Hin.
  destruct n; simpl in Hin; intuition discriminate.
Qed.

(* ===================================================================== *)
(** ** Chains of stages *)
(* ===================================================================== *)

Lemma scanChain_nests (m : NodeToGroupPropsMap) t :
  forall n, scanChainLength t = Some n -> visitedHaveProps m t = true ->
  (1 <= n)%nat /\
  exists doc, generateExplain m t [] = Returns doc /\ nestsTo (Nat.pred n) doc.
Proof.
  induction t as [|a child IH expr _|a name child IH proj _|a name order bind _| | | |];
    simpl scanChainLength; simpl visitedHaveProps; intros n Hlen Hv; try discriminate.
  - apply andb_true_iff in Hv as [[props Hm]%has_record Hc].
    destruct (scanChainLength child) as [k|]; [|discriminate].
    injection Hlen as <-.
    destruct (IH k eq_refl Hc) as (Hk & inner & Hinner & Hnest).
    split; [lia|]. exists (filterFields props ++ [(kInput, Object inner)]).
    rewrite (walk_Filter _ _ _ _ _ _ Hm), Hinner. split; [reflexivity|].
    destruct k as [|k]; [lia|]. exists inner. by split.
  - apply andb_true_iff in Hv as [[props Hm]%has_record Hc].
    destruct (scanChainLength child) as [k|]; [|discriminate].
    injection Hlen as <-.
    destruct (IH k eq_refl Hc) as (Hk & inner & Hinner & Hnest).
    split; [lia|]. exists (evalFields props ++ [(kInput, Object inner)]).
    rewrite (walk_Evaluation _ _ _ _ _ _ _ Hm), Hinner. split; [reflexivity|].
    destruct k as [|k]; [lia|]. exists inner. by split.
  - apply has_record in Hv as [props Hm]. injection Hlen as <-.
    split; [lia|]. exists (scanFields props order).
    rewrite (walk_PhysicalScan _ _ _ _ _ _ _ Hm). by repeat split.
Qed.

Lemma chain_not_canonical t n :
  chainLength t = Some n -> hasCanonicalShape t = false.
Proof.
  destruct t as [root ch refs| | | | | | |]; try discriminate.
  destruct ch as [| |e name ech proj| | | | |]; try reflexivity.
  destruct ech; try reflexivity. discriminate.
Qed.

(** C4.  A supported single-child chain of length [n], a Root followed by
    Filter and Evaluation stages down to a Physical-Scan, where the length
    is the number of stages that follow the Root, has [n >= 1]; when all
    its nodes have records, [explain] returns a document with exactly [n]
    documents nested one in the other under "inputStage", the innermost
    of which is a COLLSCAN stage without an "inputStage" field. *)
Theorem chain_nesting (m : NodeToGroupPropsMap) (t : ABT) (n : nat) :
  chainLength t = Some n ->
  visitedHaveProps m t = true ->
  (1 <= n)%nat /\
  exists doc, explain m t = Returns doc /\ nestsTo n doc.
Proof.
  intros Hlen Hv.
  pose proof (chain_not_canonical t n Hlen) as Hshape.
  destruct t as [root child refs| | | | | | |]; try discriminate.
  simpl in Hlen, Hv.
  apply andb_true_iff in Hv as [[props Hm]%has_record Hc].
  destruct (scanChain_nests m child n Hlen Hc) as (Hn & inner & Hinner & Hnest).
  split; [done|].
  exists (rootFields props ++ [(kInput, Object inner)]).
  split.
  - apply explain_walk_Returns; [by rewrite isEOFPlan_Root_shape, Hshape| |done].
    by rewrite (walk_Root _ _ _ _ _ _ Hm), Hinner.
  - destruct n as [|k]; [lia|]. exists inner. by split.
Qed.

Lemma chain_nesting_witness :
  (1 <= 2)%nat /\
  exists doc, explain sampleProps samplePlan = Returns doc /\ nestsTo 2 doc.
Proof.
  apply (chain_nesting sampleProps samplePlan 2); reflexivity.
Defined.

(* ===================================================================== *)
(** ** The walk and its builder *)
(* ===================================================================== *)

Lemma onto_nest bob header inner :
  onto bob (nest [] header inner) = nest bob header inner.
Proof. by destruct inner. Qed.

(** X1.  A walk only appends: started on a builder that already holds
    fields, it returns these fields unchanged, followed by what the same
    walk appends to an empty builder, and it fails exactly as the walk on
    the empty builder fails. *)
Theorem walk_appends (m : NodeToGroupPropsMap) (t : ABT) (bob : BSONObjBuilder) :
  generateExplain m t bob = onto bob (generateExplain m t []).
Proof.
  destruct (supported t) eqn:Hs.
  - destruct (cast_Node t) as [self|] eqn:Ha; [|by destruct t].
    destruct (m !! self) as [props|] eqn:Hm.
    + destruct t; try discriminate; injection Ha as ->.
      * by rewrite !(walk_Root _ _ _ _ _ _ Hm), onto_nest.
      * by rewrite !(walk_Filter _ _ _ _ _ _ Hm), onto_nest.
      * by rewrite !(walk_Evaluation _ _ _ _ _ _ _ Hm), onto_nest.
      * by rewrite !(walk_PhysicalScan _ _ _ _ _ _ _ Hm).
    + by rewrite !(walk_missing _ _ _ _ Hs Ha Hm).
  - by rewrite !walk_unsupported.
Qed.

Lemma walk_appends_witness :
  generateExplain sampleProps samplePlan [(kStage, BString kEOF)] =
    Returns ((kStage, BString kEOF) :: sampleOutput).
Proof.
  rewrite (walk_appends sampleProps samplePlan [(kStage, BString kEOF)]).
  reflexivity.
Defined.

(* ===================================================================== *)
(** ** Which plans can be explained *)
(* ===================================================================== *)

Lemma returned_nest bob header inner :
  returned (nest bob header inner) = returned inner.
Proof. by destruct inner. Qed.

Lemma walk_returned (m : NodeToGroupPropsMap) t :
  forall bob,
    returned (generateExplain m t bob) = endsInScan t && visitedHaveProps m t.
Proof.
  induction t as [a child IH refs _|a child IH expr _|a name child IH proj _
                 |a name order bind _| | | |]; intros bob; try reflexivity;
    simpl endsInScan; simpl visitedHaveProps.
  - destruct (m !! a) as [props|] eqn:Hm.
    + by rewrite (walk_Root _ _ _ _ _ _ Hm), returned_nest, IH.
    + rewrite (walk_missing m (RootNode a child refs) a bob eq_refl eq_refl Hm).
      simpl. by rewrite andb_false_r.
  - destruct (m !! a) as [props|] eqn:Hm.
    + by rewrite (walk_Filter _ _ _ _ _ _ Hm), returned_nest, IH.
    + rewrite (walk_missing m (FilterNode a child expr) a bob eq_refl eq_refl Hm).
      simpl. by rewrite andb_false_r.
  - destruct (m !! a) as [props|] eqn:Hm.
    + by rewrite (walk_Evaluation _ _ _ _ _ _ _ Hm), returned_nest, IH.
    + rewrite (walk_missing m (EvaluationNode a name child proj) a bob eq_refl eq_refl Hm).
      simpl. by rewrite andb_false_r.
  - destruct (m !! a) as [props|] eqn:Hm.
    + by rewrite (walk_PhysicalScan _ _ _ _ _ _ _ Hm).
    + by rewrite (walk_missing m (PhysicalScanNode a name order bind) a bob eq_refl eq_refl Hm).
Qed.

Lemma returned_explainWalk (m : NodeToGroupPropsMap) t :
  returned (explainWalk m t) = returned (generateExplain m t []).
Proof.
  unfold explainWalk.
  destruct (generateExplain m t []) as [doc| |] eqn:Hwalk; simpl; try reflexivity.
  destruct (walk_Returns_inv _ _ _ Hwalk) as (self & props & _ & _ & Hdoc).
  destruct t; try done.
  - by destruct Hdoc as (inner & _ & ->).
  - by destruct Hdoc as (inner & _ & ->).
  - by destruct Hdoc as (inner & _ & ->).
  - by subst doc.
Qed.

(** X2.  The plans [explain] answers with a document.  The walk returns
    exactly on a chain of Root, Filter and Evaluation nodes that ends in a
    Physical-Scan and whose nodes all have records.  [explain] on a tree
    rooted at a Root returns exactly on the canonical EOF shape with a
    record for the Root, and on such chains. *)
Theorem explainable_plans (m : NodeToGroupPropsMap) (t : ABT) (bob : BSONObjBuilder)
    self child refs :
  returned (generateExplain m t bob) = endsInScan t && visitedHaveProps m t /\
  returned (explain m (RootNode self child refs)) =
    if hasCanonicalShape (RootNode self child refs)
    then bool_decide (is_Some (m !! self))
    else endsInScan child && visitedHaveProps m (RootNode self child refs).
Proof.
  split; [apply walk_returned|].
  unfold explain. rewrite isEOFPlan_Root_shape.
  destruct (hasCanonicalShape (RootNode self child refs)); simpl.
  - rewrite generateEOFPlan_Root.
    by destruct (m !! self) as [props|].
  - by rewrite returned_explainWalk, walk_returned.
Qed.

Lemma explainable_plans_witness :
  returned (generateExplain sampleProps sampleLimited []) = false /\
  returned (explain rootOnlyProps sampleEOF) = true.
Proof.
  split.
  - exact (proj1 (explainable_plans sampleProps sampleLimited [] 1 sampleRefs sampleRefs)).
  - exact (proj2 (explainable_plans rootOnlyProps sampleEOF [] 21
                    (EvaluationNode 22 "p" (LimitSkipNode 23 0 0 (CoScanNode 24))
                       (Constant Nothing)) sampleRefs)).
Defined.

(** X3.  On a plan [isEOFPlan] accepts the full walk returns for no
    table and no builder: the plan ends in nodes without a handler.  Only
    the short circuit lets [explain] answer such a plan. *)
Theorem eof_plan_cannot_be_walked (m : NodeToGroupPropsMap) (t : ABT)
    (bob : BSONObjBuilder) :
  isEOFPlan t = Returns true ->
  returned (generateExplain m t bob) = false /\
  returned (explainWalk m t) = false.
Proof.
  intros Heof. apply isEOFPlan_true_inv in Heof as (?&?&?&?&?&?&->).
  rewrite returned_explainWalk, !walk_returned. by split.
Qed.

Lemma eof_plan_cannot_be_walked_witness :
  returned (generateExplain rootOnlyProps sampleEOF []) = false /\
  returned (explainWalk rootOnlyProps sampleEOF) = false.
Proof.
  apply (eof_plan_cannot_be_walked rootOnlyProps sampleEOF []). reflexivity.
Defined.

(* ===================================================================== *)
(** ** How the walk fails *)
(* ===================================================================== *)

Lemma visited_head t : exists rest, visited t = t :: rest.
Proof. destruct t; simpl; eauto. Qed.

Lemma faultless_record (m : NodeToGroupPropsMap) n :
  faultless m n = true ->
  supported n = true /\ exists self props, cast_Node n = Some self /\ m !! self = Some props.
Proof.
  unfold faultless, recorded. intros [Hs Hr]%andb_true_iff. split; [done|].
  destruct (cast_Node n) as [self|]; [|discriminate].
  apply has_record in Hr as [props Hm]. eauto.
Qed.

Lemma walk_fault (m : NodeToGroupPropsMap) n bob :
  faultless m n = false ->
  generateExplain m n bob = Throws (faultCode n) (faultMessage n).
Proof.
  unfold faultless, recorded, faultCode, faultMessage. intros H.
  destruct (supported n) eqn:Hs.
  - destruct (cast_Node n) as [self|] eqn:Ha; [|by destruct n].
    simpl in H. apply no_record in H. by eapply walk_missing.
  - by apply walk_unsupported.
Qed.

(** X4.  The walk stops at the first node, from the top, that is of an
    unsupported variant or has no record, and leaves through the
    assertion of that node: 8075600, 8075601, 8075602 or 8075603 for a
    Root, Filter, Evaluation or Physical-Scan without a record, 8075606
    for an unsupported variant.  What lies below that node plays no
    part. *)
Theorem walk_stops_at_first_fault (m : NodeToGroupPropsMap) (t : ABT)
    (before after : list ABT) (n : ABT) (bob : BSONObjBuilder) :
  visited t = before ++ n :: after ->
  forallb (faultless m) before = true ->
  faultless m n = false ->
  generateExplain m t bob = Throws (faultCode n) (faultMessage n).
Proof.
  revert t bob. induction before as [|p before IH]; intros t bob Hvis Hbefore Hn.
  - destruct (visited_head t) as [rest Hrest]. rewrite Hrest in Hvis.
    injection Hvis as -> _. by apply walk_fault.
  - destruct (visited_head t) as [rest Hrest].
    assert (p = t) as -> by (rewrite Hrest in Hvis; by injection Hvis).
    simpl in Hbefore. apply andb_true_iff in Hbefore as [Ht Hbefore].
    apply faultless_record in Ht as (Hs & self & props & Ha & Hm).
    destruct t; try discriminate; injection Ha as ->; simpl in Hvis;
      injection Hvis as Hvis.
    + rewrite (walk_Root _ _ _ _ _ _ Hm). apply nest_Throws. by apply IH.
    + rewrite (walk_Filter _ _ _ _ _ _ Hm). apply nest_Throws. by apply IH.
    + rewrite (walk_Evaluation _ _ _ _ _ _ _ Hm). apply nest_Throws. by apply IH.
    + by destruct before.
Qed.

Lemma walk_stops_at_first_fault_witness :
  generateExplain filterlessProps samplePlan [] = Throws 8075601 missingProps /\
  generateExplain sampleProps sampleLimited [] = Throws 8075606 unsupportedNode.
Proof.
  split.
  - exact (walk_stops_at_first_fault filterlessProps samplePlan
             [samplePlan] [PhysicalScanNode 13 "coll" Forward sampleBind]
             (FilterNode 12 (PhysicalScanNode 13 "coll" Forward sampleBind)
                (Constant (Boolean true)))
             [] eq_refl eq_refl eq_refl).
  - exact (walk_stops_at_first_fault sampleProps sampleLimited
             [sampleLimited] []
             (LimitSkipNode 12 5 0 (PhysicalScanNode 13 "coll" Forward sampleBind))
             [] eq_refl eq_refl eq_refl).
Defined.

Lemma walk_exits (m : NodeToGroupPropsMap) t :
  forall bob,
    match generateExplain m t bob with
    | Returns doc => isEmpty doc = false \/ bob <> []
    | Throws code msg =>
        (In code lookupCodes /\ msg = missingProps) \/
        (code = 8075606 /\ msg = unsupportedNode)
    | Undefined => False
    end.
Proof.
  induction t as [a child IH refs _|a child IH expr _|a name child IH proj _
                 |a name order bind _| | | |]; intros bob;
    try (right; by split).
  - destruct (m !! a) as [props|] eqn:Hm.
    + rewrite (walk_Root _ _ _ _ _ _ Hm). specialize (IH []).
      destruct (generateExplain m child []); simpl; [|done..].
      left. by destruct bob.
    + rewrite (walk_missing m (RootNode a child refs) a bob eq_refl eq_refl Hm).
      left. split; [simpl; tauto|done].
  - destruct (m !! a) as [props|] eqn:Hm.
    + rewrite (walk_Filter _ _ _ _ _ _ Hm). specialize (IH []).
      destruct (generateExplain m child []); simpl; [|done..].
      left. by destruct bob.
    + rewrite (walk_missing m (FilterNode a child expr) a bob eq_refl eq_refl Hm).
      left. split; [simpl; tauto|done].
  - destruct (m !! a) as [props|] eqn:Hm.
    + rewrite (walk_Evaluation _ _ _ _ _ _ _ Hm). specialize (IH []).
      destruct (generateExplain m child []); simpl; [|done..].
      left. by destruct bob.
    + rewrite (walk_missing m (EvaluationNode a name child proj) a bob eq_refl eq_refl Hm).
      left. split; [simpl; tauto|done].
  - destruct (m !! a) as [props|] eqn:Hm.
    + rewrite (walk_PhysicalScan _ _ _ _ _ _ _ Hm). left. by destruct bob.
    + rewrite (walk_missing m (PhysicalScanNode a name order bind) a bob eq_refl eq_refl Hm).
      left. split; [simpl; tauto|done].
Qed.

(** X5.  The assertion 8075604, "The ABT has no nodes", never fires: a
    walk that returns has appended at least the stage field.  Whatever the
    tree and the table, [explain] leaves only through a failed property
    lookup (8075600 to 8075603 in a handler, 8075605 on the EOF path) or
    through the unsupported-variant assertion 8075606. *)
Theorem explain_exits (m : NodeToGroupPropsMap) (t : ABT) (code : Z) (msg : string) :
  explain m t = Throws code msg ->
  code <> 8075604 /\
  ((In code (8075605 :: lookupCodes) /\ msg = missingProps) \/
   (code = 8075606 /\ msg = unsupportedNode)).
Proof.
  intros H.
  assert (Hexits : (In code (8075605 :: lookupCodes) /\ msg = missingProps) \/
                   (code = 8075606 /\ msg = unsupportedNode)).
  { unfold explain in H.
    destruct t as [self child refs| | | | | | |]; try discriminate.
    rewrite isEOFPlan_Root_shape in H.
    destruct (hasCanonicalShape (RootNode self child refs)); simpl in H.
    - rewrite generateEOFPlan_Root in H.
      destruct (m !! self); [discriminate|]. injection H as <- <-.
      left. split; [simpl; tauto|done].
    - unfold explainWalk in H.
      pose proof (walk_exits m (RootNode self child refs) []) as Hwalk.
      destruct (generateExplain m (RootNode self child refs) []) as [doc|c s|];
        simpl in H; [|injection H as <- <-|done].
      + destruct Hwalk as [Hdoc|Hbob]; [|done].
        unfold obj in H. rewrite Hdoc in H. discriminate.
      + destruct Hwalk as [[Hin ->]|[-> ->]]; [left|right]; [|done].
        split; [by right|done]. }
  split; [|exact Hexits].
  destruct Hexits as [[Hin _]|[-> _]]; [|done].
  simpl in Hin. intros ->. intuition discriminate.
Qed.

Lemma explain_exits_witness :
  (8075605 <> 8075604) /\
  ((In 8075605 (8075605 :: lookupCodes) /\ missingProps = missingProps) \/
   (8075605 = 8075606 /\ missingProps = unsupportedNode)).
Proof.
  apply (explain_exits ∅ sampleEOF 8075605 missingProps). reflexivity.
Defined.

(* ===================================================================== *)
(** ** What the walk reads *)
(* ===================================================================== *)

Lemma walk_same_lookups (m m' : NodeToGroupPropsMap) t :
  (forall self, In self (lookups m t) -> m !! self = m' !! self) ->
  forall bob, generateExplain m t bob = generateExplain m' t bob.
Proof.
  induction t as [a child IH refs _|a child IH expr _|a name child IH proj _
                 |a name order bind _| | | |]; intros Hsame bob; try reflexivity.
  - pose proof (Hsame a (or_introl eq_refl)) as Ha.
    simpl in Hsame. destruct (m !! a) as [props|] eqn:Hm; symmetry in Ha.
    + assert (Hc : generateExplain m child [] = generateExplain m' child []).
      { apply IH. intros self Hin. apply Hsame. by right. }
      by rewrite (walk_Root m _ _ _ _ _ Hm), (walk_Root m' _ _ _ _ _ Ha), Hc.
    + by rewrite (walk_missing m (RootNode a child refs) a bob eq_refl eq_refl Hm),
        (walk_missing m' (RootNode a child refs) a bob eq_refl eq_refl Ha).
  - pose proof (Hsame a (or_introl eq_refl)) as Ha.
    simpl in Hsame. destruct (m !! a) as [props|] eqn:Hm; symmetry in Ha.
    + assert (Hc : generateExplain m child [] = generateExplain m' child []).
      { apply IH. intros self Hin. apply Hsame. by right. }
      by rewrite (walk_Filter m _ _ _ _ _ Hm), (walk_Filter m' _ _ _ _ _ Ha), Hc.
    + by rewrite (walk_missing m (FilterNode a child expr) a bob eq_refl eq_refl Hm),
        (walk_missing m' (FilterNode a child expr) a bob eq_refl eq_refl Ha).
  - pose proof (Hsame a (or_introl eq_refl)) as Ha.
    simpl in Hsame. destruct (m !! a) as [props|] eqn:Hm; symmetry in Ha.
    + assert (Hc : generateExplain m child [] = generateExplain m' child []).
      { apply IH. intros self Hin. apply Hsame. by right. }
      by rewrite (walk_Evaluation m _ _ _ _ _ _ Hm), (walk_Evaluation m' _ _ _ _ _ _ Ha), Hc.
    + by rewrite (walk_missing m (EvaluationNode a name child proj) a bob eq_refl eq_refl Hm),
        (walk_missing m' (EvaluationNode a name child proj) a bob eq_refl eq_refl Ha).
  - pose proof (Hsame a (or_introl eq_refl)) as Ha.
    destruct (m !! a) as [props|] eqn:Hm; symmetry in Ha.
    + by rewrite (walk_PhysicalScan m _ _ _ _ _ _ Hm), (walk_PhysicalScan m' _ _ _ _ _ _ Ha).
    + by rewrite (walk_missing m (PhysicalScanNode a name order bind) a bob eq_refl eq_refl Hm),
        (walk_missing m' (PhysicalScanNode a name order bind) a bob eq_refl eq_refl Ha).
Qed.

(** X6.  The table is read only where the code looks a node up: the
    walk at the addresses of the supported nodes from the top down to the
    first one without a record or to the first unsupported node, [explain]
    on an EOF plan at the address of the Root alone.  Two tables that
    agree at these addresses give the same outcome, whatever they hold at
    any other address, the addresses of nodes further down the tree
    included. *)
Theorem explain_reads_visited_records (m m' : NodeToGroupPropsMap) (t : ABT)
    (bob : BSONObjBuilder) :
  ((forall self, In self (lookups m t) -> m !! self = m' !! self) ->
   generateExplain m t bob = generateExplain m' t bob) /\
  ((forall self, In self (explainLookups m t) -> m !! self = m' !! self) ->
   explain m t = explain m' t).
Proof.
  split; [intros Hsame; by apply walk_same_lookups|].
  intros Hsame. unfold explain.
  destruct t as [self child refs| | | | | | |]; try reflexivity.
  rewrite isEOFPlan_Root_shape. unfold explainLookups in Hsame.
  destruct (hasCanonicalShape (RootNode self child refs)); simpl mbind.
  - rewrite !generateEOFPlan_Root. by rewrite (Hsame self (or_introl eq_refl)).
  - unfold explainWalk. by rewrite (walk_same_lookups m m' _ Hsame []).
Qed.

Lemma explain_reads_visited_records_witness :
  filterlessProps !! 13%positive <> sampleRootRecord !! 13%positive /\
  generateExplain filterlessProps samplePlan [] =
    generateExplain sampleRootRecord samplePlan [] /\
  rootOnlyProps !! 22%positive <> sampleEvalRecord !! 22%positive /\
  explain rootOnlyProps sampleEOF = explain sampleEvalRecord sampleEOF.
Proof.
  split; [discriminate|]. split.
  - apply (proj1 (explain_reads_visited_records filterlessProps sampleRootRecord
                    samplePlan [])).
    intros self Hin. vm_compute in Hin. destruct Hin as [<-|[<-|[]]]; reflexivity.
  - split; [discriminate|].
    apply (proj2 (explain_reads_visited_records rootOnlyProps sampleEvalRecord
                    sampleEOF [])).
    intros self Hin. vm_compute in Hin. destruct Hin as [<-|[]]. reflexivity.
Defined.

Lemma walk_skeleton (m : NodeToGroupPropsMap) t :
  forall bob, generateExplain m (skeleton t) bob = generateExplain m t bob.
Proof.
  induction t as [a child IH refs _|a child IH expr _|a name child IH proj _
                 |a name order bind _| | | |]; intros bob; try reflexivity;
    simpl skeleton.
  - destruct (m !! a) as [props|] eqn:Hm.
    + by rewrite !(walk_Root m _ _ _ _ _ Hm), IH.
    + by rewrite !(walk_missing m (RootNode a _ _) a bob eq_refl eq_refl Hm).
  - destruct (m !! a) as [props|] eqn:Hm.
    + by rewrite !(walk_Filter m _ _ _ _ _ Hm), IH.
    + by rewrite !(walk_missing m (FilterNode a _ _) a bob eq_refl eq_refl Hm).
  - destruct (m !! a) as [props|] eqn:Hm.
    + by rewrite !(walk_Evaluation m _ _ _ _ _ _ Hm), IH.
    + by rewrite !(walk_missing m (EvaluationNode a _ _ _) a bob eq_refl eq_refl Hm).
Qed.

(** X7.  The walk reads of a node its variant, its address, its child
    and, of a Physical-Scan, the scan order, and nothing else: two trees
    that differ only in their expression children (references, filter,
    projection, binder), projection names or scan definition names have
    the same outcome of the walk. *)
Theorem walk_ignores_expressions (m : NodeToGroupPropsMap) (t t' : ABT)
    (bob : BSONObjBuilder) :
  skeleton t = skeleton t' ->
  generateExplain m t bob = generateExplain m t' bob.
Proof.
  intros H. by rewrite <- (walk_skeleton m t), <- (walk_skeleton m t'), H.
Qed.

Lemma walk_ignores_expressions_witness :
  samplePlan <> samplePlanRenamed /\
  generateExplain sampleProps samplePlan [] =
    generateExplain sampleProps samplePlanRenamed [].
Proof.
  split; [discriminate|].
  apply (walk_ignores_expressions sampleProps samplePlan samplePlanRenamed []).
  reflexivity.
Defined.

(* ===================================================================== *)
(** ** The document of a walk *)
(* ===================================================================== *)

(** X8.  The stages of the output follow the nodes of the plan: the
    stage names read along the chain of input stages, from the top, are
    the stage names of the visited nodes in their order from the root, one
    stage per node. *)
Theorem stages_follow_nodes (m : NodeToGroupPropsMap) (t : ABT) (doc : BSONObj) :
  generateExplain m t [] = Returns doc ->
  stageNames (Object doc) = map (fun n => Some (BString (stageNameOf n))) (visited t).
Proof.
  revert doc.
  induction t as [a child IH refs _|a child IH expr _|a name child IH proj _
                 |a name order bind _| | | |]; intros doc Hwalk;
    destruct (walk_Returns_inv _ _ _ Hwalk) as (addr & record & _ & _ & Hdoc);
    try done.
  - destruct Hdoc as (inner & Hinner & ->). simpl. f_equal. by apply IH.
  - destruct Hdoc as (inner & Hinner & ->). simpl. f_equal. by apply IH.
  - destruct Hdoc as (inner & Hinner & ->). simpl. f_equal. by apply IH.
  - by subst doc.
Qed.

Lemma stages_follow_nodes_witness :
  stageNames (Object sampleOutput) =
    [Some (BString "ROOT"); Some (BString "FILTER"); Some (BString "COLLSCAN")].
Proof.
  exact (stages_follow_nodes sampleProps samplePlan sampleOutput eq_refl).
Defined.

Lemma emittedFields_NoDup n : NoDup (emittedFields n).
Proof. destruct n; simpl; apply (bool_decide_unpack _); by vm_compute. Qed.

(** X9.  No document [explain] returns has two fields of the same name,
    and neither has any of the stage documents nested in it. *)
Theorem explain_fields_distinct (m : NodeToGroupPropsMap) (t : ABT) (doc s : BSONObj) :
  explain m t = Returns doc ->
  StageDoc doc s ->
  NoDup (fieldNames s).
Proof.
  intros Hexplain Hstage.
  destruct (isEOFPlan t) as [[|]| |] eqn:Heof;
    try (unfold explain in Hexplain; rewrite Heof in Hexplain; discriminate).
  - unfold explain in Hexplain. rewrite Heof in Hexplain. simpl in Hexplain.
    destruct t as [self child refs| | | | | | |]; try discriminate.
    rewrite generateEOFPlan_Root in Hexplain.
    destruct (m !! self) as [props|]; [|discriminate]. injection Hexplain as <-.
    inversion Hstage as [|? ? ? Hget]; subst; [|discriminate Hget].
    apply (bool_decide_unpack _). by vm_compute.
  - apply explain_Returns_walk in Hexplain; [|done].
    destruct (stage_of_node m t doc s Hexplain Hstage) as (n & _ & Hn).
    destruct (walk_fields m n s Hn) as (_ & _ & ->).
    apply emittedFields_NoDup.
Qed.

Lemma explain_fields_distinct_witness : NoDup (fieldNames sampleOutput).
Proof.
  exact (explain_fields_distinct sampleProps samplePlan sampleOutput sampleOutput
           eq_refl (stage_top sampleOutput)).
Defined.

Lemma walk_shows (m : NodeToGroupPropsMap) n s :
  generateExplain m n [] = Returns s ->
  exists self props,
    cast_Node n = Some self /\ m !! self = Some props /\
    getField s kNodeId = shownNodeId n props /\
    getField s kCost = shownCost n props.
Proof.
  intros Hwalk.
  destruct (walk_Returns_inv _ _ _ Hwalk) as (self & props & Ha & Hm & Hdoc).
  exists self, props. split; [done|]. split; [done|].
  destruct n; try done.
  - by destruct Hdoc as (inner & _ & ->).
  - by destruct Hdoc as (inner & _ & ->).
  - by destruct Hdoc as (inner & _ & ->).
  - by subst s.
Qed.

Lemma node_has_stage (m : NodeToGroupPropsMap) t n :
  forall doc, generateExplain m t [] = Returns doc -> In n (visited t) ->
  exists s, StageDoc doc s /\ generateExplain m n [] = Returns s.
Proof.
  induction t as [a child IH refs _|a child IH expr _|a name child IH proj _
                 |a name order bind _| | | |]; intros doc Hwalk Hin;
    destruct (walk_Returns_inv _ _ _ Hwalk) as (addr & record & _ & _ & Hdoc);
    try done.
  - destruct Hin as [<-|Hin]; [eauto using stage_top|].
    destruct Hdoc as (inner & Hinner & ->).
    destruct (IH inner Hinner Hin) as (s & Hs & Hn).
    exists s. split; [|done]. by apply stage_input with (inner := inner).
  - destruct Hin as [<-|Hin]; [eauto using stage_top|].
    destruct Hdoc as (inner & Hinner & ->).
    destruct (IH inner Hinner Hin) as (s & Hs & Hn).
    exists s. split; [|done]. by apply stage_input with (inner := inner).
  - destruct Hin as [<-|Hin]; [eauto using stage_top|].
    destruct Hdoc as (inner & Hinner & ->).
    destruct (IH inner Hinner Hin) as (s & Hs & Hn).
    exists s. split; [|done]. by apply stage_input with (inner := inner).
  - destruct Hin as [<-|[]]. eauto using stage_top.
Qed.

(** X10.  No visited node is left out of a returned document, and each
    is shown with the record stored under its own address: for every node
    the visitor arrives at, the output holds the stage document that node
    renders to; a Filter, Evaluation or Physical-Scan stage carries the
    plan-node id of that record and no cost, the Root stage carries the
    cost of its record and no plan-node id. *)
Theorem every_node_has_its_stage (m : NodeToGroupPropsMap) (t n : ABT) (doc : BSONObj) :
  generateExplain m t [] = Returns doc ->
  In n (visited t) ->
  exists s self props,
    StageDoc doc s /\
    generateExplain m n [] = Returns s /\
    cast_Node n = Some self /\ m !! self = Some props /\
    getField s kStage = Some (BString (stageNameOf n)) /\
    getField s kNodeId = shownNodeId n props /\
    getField s kCost = shownCost n props.
Proof.
  intros Hwalk Hin.
  destruct (node_has_stage m t n doc Hwalk Hin) as (s & Hs & Hn).
  destruct (walk_shows m n s Hn) as (self & props & Ha & Hm & Hid & Hcost).
  destruct (walk_fields m n s Hn) as (_ & Hname & _).
  exists s, self, props. eauto 10.
Qed.

Lemma every_node_has_its_stage_witness :
  exists s self props,
    StageDoc sampleOutput s /\
    generateExplain sampleProps (PhysicalScanNode 13 "coll" Forward sampleBind) [] =
      Returns s /\
    cast_Node (PhysicalScanNode 13 "coll" Forward sampleBind) = Some self /\
    sampleProps !! self = Some props /\
    getField s kStage = Some (BString kScanName) /\
    getField s kNodeId = Some (NumberInt (_planNodeId props)) /\
    getField s kCost = None.
Proof.
  apply (every_node_has_its_stage sampleProps samplePlan
           (PhysicalScanNode 13 "coll" Forward sampleBind) sampleOutput eq_refl).
  simpl. tauto.
Defined.

(* ===================================================================== *)
(** ** The fall through to the walk *)
(* ===================================================================== *)

Lemma explain_is_walk (m : NodeToGroupPropsMap) t :
  isEOFPlan t = Returns false -> explain m t = generateExplain m t [].
Proof.
  intros Heof. unfold explain, explainWalk. rewrite Heof. simpl.
  pose proof (walk_exits m t []) as Hwalk.
  destruct (generateExplain m t []) as [doc| |]; simpl; try reflexivity.
  destruct Hwalk as [Hdoc|Hbob]; [|done].
  unfold obj. by rewrite Hdoc.
Qed.

(** C1, as the code has it.  On every tree whose top node is a Root and
    that deviates from the canonical empty-result shape, in a node type
    below the Root, in a bound of the Limit-Skip or in the projection,
    [isEOFPlan] returns false, and the outcome of [explain] is the outcome
    of the walk of the whole tree from an empty builder: the document the
    walk has built, or the assertion the walk has left through. *)
Theorem isEOFPlan_false_on_deviation (m : NodeToGroupPropsMap) self child refs :
  hasCanonicalShape (RootNode self child refs) = false ->
  isEOFPlan (RootNode self child refs) = Returns false /\
  explain m (RootNode self child refs) = generateExplain m (RootNode self child refs) [].
Proof.
  intros Hshape.
  assert (Heof : isEOFPlan (RootNode self child refs) = Returns false)
    by (by rewrite isEOFPlan_Root_shape, Hshape).
  split; [exact Heof|]. by apply explain_is_walk.
Qed.

Lemma isEOFPlan_false_on_deviation_witness :
  isEOFPlan sampleSkipOne = Returns false /\
  explain rootOnlyProps sampleSkipOne = generateExplain rootOnlyProps sampleSkipOne [] /\
  isEOFPlan samplePlan = Returns false /\
  explain sampleProps samplePlan = generateExplain sampleProps samplePlan [].
Proof.
  destruct (isEOFPlan_false_on_deviation rootOnlyProps 21
              (EvaluationNode 22 "p" (LimitSkipNode 23 0 1 (CoScanNode 24)) (Constant Nothing))
              sampleRefs eq_refl) as [H1 H2].
  destruct (isEOFPlan_false_on_deviation sampleProps 11
              (FilterNode 12 (PhysicalScanNode 13 "coll" Forward sampleBind)
                 (Constant (Boolean true)))
              sampleRefs eq_refl) as [H3 H4].
  repeat split; assumption.
Defined.

(** C1, as it is stated, fails: a tree whose top node is not a Root
    deviates from the canonical shape in its first node type, and on it
    [isEOFPlan] does not return false.  The function casts its argument to
    [RootNode] and uses the result without a test; its comment requires
    the full tree, with a Root on top. *)
Lemma isEOFPlan_off_root :
  hasCanonicalShape sampleFilterTop = false /\
  isEOFPlan sampleFilterTop <> Returns false /\
  explain sampleProps sampleFilterTop <> generateExplain sampleProps sampleFilterTop [].
Proof. repeat split; discriminate. Qed.
